(** * Thyracont Smartline V1 driver: frame codec and attribute mapping

    A shallow embedding of [pymeasure/instruments/thyracont/smartline_v1.py]
    together with the fragment of Python's string, integer and float
    semantics that the driver relies on. *)

From Stdlib Require Import ZArith NArith List String Ascii Bool Lia Permutation.
From Stdlib Require Import DecimalString.
From Stdlib Require Import PrimFloat SpecFloat FloatOps.
Import ListNotations.
Open Scope Z_scope.

(** ** The Python fragment *)

Module Py.

(** A character is a Unicode code point; a [str] is a sequence of them. *)
Definition char := N.
Definition str := list char.

(** String literals of the source, as sequences of code points. *)
Definition lit (s : string) : str := map N_of_ascii (list_ascii_of_string s).

(** Exceptions.  [ValueError], [IndexError], [OverflowError] and
    [ZeroDivisionError] are the built-in ones, the first three with their
    message.  [TimeoutError] is the transport's; [ValidationError] is the
    attribute layer's, under the name the specification gives it.
    [Unmodelled] marks an input on which a built-in is defined by Python but
    lies outside the fragment embedded here. *)
Inductive exn : Type :=
| ValueError (msg : str)
| IndexError (msg : str)
| OverflowError (msg : str)
| ZeroDivisionError
| KeyError
| TimeoutError
| ValidationError
| Unmodelled (what : string).

Inductive result (A : Type) : Type :=
| Ok (a : A)
| Raise (e : exn).
Arguments Ok {A} a.
Arguments Raise {A} e.

Definition rbind {A B} (r : result A) (k : A -> result B) : result B :=
  match r with
  | Ok a => k a
  | Raise e => Raise e
  end.

Notation "'let?' x ':=' r 'in' k" := (rbind r (fun x => k))
  (at level 10, x name, r at level 100, k at level 200).

Definition ord (c : char) : Z := Z.of_N c.

(** [chr(i)] raises [ValueError] outside [range(0x110000)]. *)
Definition chr (i : Z) : result char :=
  if (0 <=? i) && (i <? 0x110000)
  then Ok (Z.to_N i)
  else Raise (ValueError (lit "chr() arg not in range(0x110000)")).

(** The built-in [sum]: a left fold of [+] starting from [0]. *)
Definition sum (l : list Z) : Z := fold_left Z.add l 0.

Definition len (s : str) : Z := Z.of_nat (List.length s).

(** [s[i]]: a negative index counts from the end; out of range raises. *)
Definition getitem (s : str) (i : Z) : result char :=
  let j := if i <? 0 then i + len s else i in
  if (0 <=? j) && (j <? len s)
  then match nth_error s (Z.to_nat j) with
       | Some c => Ok c
       | None => Raise (IndexError (lit "string index out of range"))
       end
  else Raise (IndexError (lit "string index out of range")).

(** [s[start:stop]] with step 1: bounds are shifted when negative and
    clipped to [0, len s]; a slice never raises. *)
Definition slice (s : str) (start stop : option Z) : str :=
  let n := len s in
  let adjust i := if i <? 0 then Z.max 0 (i + n) else Z.min i n in
  let lo := match start with Some i => adjust i | None => 0 end in
  let hi := match stop with Some i => adjust i | None => n end in
  firstn (Z.to_nat (hi - lo)) (skipn (Z.to_nat lo) s).

(** Decimal digits of a natural number, most significant first. *)
Definition decimal (n : N) : str := lit (NilZero.string_of_uint (N.to_uint n)).

(** The integer presentation type [d] with zero padding to a minimum
    [width], as in [f"{i:03d}"], ["%06d" % i] and ["%d" % i] (width 0):
    the sign comes first and counts towards the width. *)
Definition format_d (width : nat) (i : Z) : str :=
  let sign := if i <? 0 then lit "-" else [] in
  let digits := decimal (Z.abs_N i) in
  sign ++ repeat 48%N (width - List.length sign - List.length digits) ++ digits.

Definition is_digit (c : char) : bool := ((48 <=? c) && (c <=? 57))%N.

(** Value of a string of ASCII digits read in base 10. *)
Definition digits_value (s : str) : Z :=
  fold_left (fun acc c => 10 * acc + (ord c - 48)) s 0.

(** [int(s)], on the fragment of its grammar made of ASCII digits alone
    (no sign, blank or underscore), within the length every interpreter
    version converts. *)
Definition int_of_str (s : str) : result Z :=
  match s with
  | [] => Raise (ValueError (lit "invalid literal for int() with base 10: ''"))
  | _ =>
      if forallb is_digit s && (List.length s <=? 4300)%nat
      then Ok (digits_value s)
      else Raise (Unmodelled "int() of a literal that is not a short run of ASCII digits")
  end.

(** An [int] converted to a [float]: rounded to the nearest binary64,
    ties to even; it raises when the result would be infinite. *)
Definition float_of_int (i : Z) : result float :=
  let x := SF2Prim (binary_normalize prec emax i 0 false) in
  if is_infinity x
  then Raise (OverflowError (lit "int too large to convert to float"))
  else Ok x.

(** [float(s)], on the fragment of its grammar made of at most 15 ASCII
    digits, whose value a binary64 holds exactly. *)
Definition float_of_str (s : str) : result float :=
  match s with
  | [] => Raise (ValueError (lit "could not convert string to float: ''"))
  | _ =>
      if forallb is_digit s && (List.length s <=? 15)%nat
      then float_of_int (digits_value s)
      else Raise (Unmodelled "float() of a literal that is not a short run of ASCII digits")
  end.

(** A numeric operand: an [int] or a [float]. *)
Inductive number : Type :=
| Int (i : Z)
| Float (x : float).

Definition as_float (n : number) : result float :=
  match n with
  | Int i => float_of_int i
  | Float x => Ok x
  end.

(** [x / n] and [x * n] for a float [x]: an [int] operand is converted
    first. *)
Definition float_truediv (x : float) (n : number) : result float :=
  let? y := as_float n in
  if is_zero y then Raise ZeroDivisionError else Ok (x / y)%float.

Definition float_mul (x : float) (n : number) : result float :=
  let? y := as_float n in
  Ok (x * y)%float.

Section Pow.

(** The C library's [pow] on doubles, which the interpreter calls for a
    power with a negative exponent. *)
Variable libm_pow : float -> float -> float.

(** [b ** e] on integers: an [int] for a non-negative exponent, and a
    [float] computed by [pow] on the converted operands otherwise. *)
Definition int_pow (b e : Z) : result number :=
  if e <? 0
  then
    if b =? 0 then Raise ZeroDivisionError
    else
      let? x := float_of_int b in
      let? y := float_of_int e in
      Ok (Float (libm_pow x y))
  else Ok (Int (b ^ e)).

End Pow.

End Py.
Import Py.

(** ** The driver *)

Module SmartlineV1.

(** Modelled from the spec: the transport behind the [Instrument] base
    class, whose [read] and [write] the driver calls through [super()].
    It is a line channel: [write] sends the given text followed by the
    write terminator, [read] delivers the next received line with the read
    terminator already consumed.  [outbox] holds what was sent, oldest
    first; [inbox] holds the lines still to be delivered. *)
Record Adapter : Type := {
  outbox : list str;
  inbox : list str
}.

(** The instance: its adapter and the [address] attribute. *)
Record instrument : Type := {
  adapter : Adapter;
  address : Z
}.

Definition write_termination : str := [13%N].
Definition read_termination : str := [13%N].

(** [__init__(adapter, name, address=1)]: [self.address = address]. *)
Definition __init__ (adapter : Adapter) (address : Z) : instrument :=
  {| adapter := adapter; address := address |}.

(** Methods run on the instance and may raise; what they did to the
    instance before raising stays done. *)
Definition M (A : Type) : Type := instrument -> result A * instrument.

Definition ret {A} (a : A) : M A := fun self => (Ok a, self).
Definition raise {A} (e : exn) : M A := fun self => (Raise e, self).
Definition lift {A} (r : result A) : M A := fun self => (r, self).
Definition bind {A B} (m : M A) (k : A -> M B) : M B :=
  fun self =>
    match m self with
    | (Ok a, self') => k a self'
    | (Raise e, self') => (Raise e, self')
    end.

Notation "x <- m ;; k" := (bind m (fun x => k))
  (at level 61, m at next level, right associativity).

Definition self_address : M Z := fun self => (Ok (address self), self).

(** Modelled from the spec: [Instrument.write], which hands the text and
    the write terminator to the transport. *)
Definition super_write (command : str) : M unit :=
  fun self =>
    (Ok tt,
     {| adapter := {| outbox := outbox (adapter self) ++ [command ++ write_termination];
                      inbox := inbox (adapter self) |};
        address := address self |}).

(** Modelled from the spec: [Instrument.read], which returns the next line
    of the transport; with nothing to deliver the transport gives up. *)
Definition super_read : M str :=
  fun self =>
    match inbox (adapter self) with
    | [] => (Raise TimeoutError, self)
    | line :: rest =>
        (Ok line,
         {| adapter := {| outbox := outbox (adapter self); inbox := rest |};
            address := address self |})
    end.

(** [_checksum(msg)]: [chr(sum(map(ord, msg)) % 64 + 64)]. *)
Definition _checksum (msg : str) : result char :=
  chr (sum (map ord msg) mod 64 + 64).

(** The [ValueError] that [read] raises on a checksum mismatch; its text
    holds the received line, the computed and the received checksum. *)
Definition ChecksumError (msg : str) (chksum received : char) : exn :=
  ValueError (lit "checksum error in received message " ++ msg
              ++ lit " with checksum " ++ [chksum]
              ++ lit " but received " ++ [received]).

(** [read()]. *)
Definition read : M str :=
  msg <- super_read ;;
  chksum <- lift (_checksum (slice msg None (Some (-1)))) ;;
  last_char <- lift (getitem msg (-1)) ;;
  if (last_char =? chksum)%N
  then ret (slice msg None (Some (-1)))
  else
    received <- lift (getitem msg (-1)) ;;
    raise (ChecksumError msg chksum received).

(** [write(command)]. *)
Definition write (command : str) : M unit :=
  a <- self_address ;;
  let fullcmd := format_d 3 a ++ command in
  chksum <- lift (_checksum fullcmd) ;;
  super_write (fullcmd ++ [chksum]).

(** The two [ValueError]s of [check_errors]. *)
Definition FrameTooShortError (reply : str) : exn :=
  ValueError (lit "Reply of instrument ('" ++ reply ++ lit "') too short.").

Definition DeviceError (reply : str) : exn :=
  ValueError (lit "Reply from Instrument indicates an error '" ++ reply ++ lit "'").

(** [check_errors()]; ["N"] is 78 and ["X"] is 88. *)
Definition check_errors : M (list str) :=
  reply <- read ;;
  if len reply <? 4
  then raise (FrameTooShortError reply)
  else
    echo <- lift (getitem reply 3) ;;
    if existsb (N.eqb echo) [78; 88]%N
    then raise (DeviceError reply)
    else ret [].

(** [preprocess_reply=lambda s: s[4:]], shared by the four attributes. *)
Definition preprocess_reply (s : str) : str := slice s (Some 4) None.

Section Pressure.

Variable libm_pow : float -> float -> float.

(** [pressure]'s
    [get_process=lambda s: float(s[:4])/1000*10**(int(s[4:])-20)]. *)
Definition pressure_get_process (s : str) : result float :=
  let? mantissa := float_of_str (slice s None (Some 4)) in
  let? scaled := float_truediv mantissa (Int 1000) in
  let? exponent := int_of_str (slice s (Some 4) None) in
  let? factor := int_pow libm_pow 10 (exponent - 20) in
  float_mul scaled factor.

(** The pressure formula as the specification words it, on a mantissa
    field and an exponent field given apart:
    [float(mantissa) / 1000 * 10^(int(exponent) - 20)]. *)
Definition pressure_formula (mantissa exponent : str) : result float :=
  let? m := float_of_str mantissa in
  let? scaled := float_truediv m (Int 1000) in
  let? e := int_of_str exponent in
  let? factor := int_pow libm_pow 10 (e - 20) in
  float_mul scaled factor.

End Pressure.

(** Values a caller may assign to an attribute. *)
Inductive value : Type :=
| VStr (s : str)
| VBool (b : bool)
| VInt (i : Z).

Definition value_eqb (v w : value) : bool :=
  match v, w with
  | VStr s, VStr t => if list_eq_dec N.eq_dec s t then true else false
  | VBool a, VBool b => Bool.eqb a b
  | VInt i, VInt j => i =? j
  | _, _ => false
  end.

(** A writable attribute as [Instrument.control] declares it: the read
    command, the write template applied to the raw value, the [values]
    table and the [check_set_errors] flag. *)
Record control : Type := {
  get_command : str;
  set_command : Z -> str;
  values : list (value * Z);
  check_set_errors : bool
}.

(** [unit]: ["U"], ["u%06d"], [{"mbar": 0, "Torr": 1, "hPa": 2}]. *)
Definition unit_ : control := {|
  get_command := lit "U";
  set_command := fun raw => lit "u" ++ format_d 6 raw;
  values := [(VStr (lit "mbar"), 0); (VStr (lit "Torr"), 1); (VStr (lit "hPa"), 2)];
  check_set_errors := false
|}.

(** [cathode_enabled]: ["I"], ["i%d"], [{True: 1, False: 0}],
    [check_set_errors=True]. *)
Definition cathode_enabled : control := {|
  get_command := lit "I";
  set_command := fun raw => lit "i" ++ format_d 0 raw;
  values := [(VBool true, 1); (VBool false, 0)];
  check_set_errors := true
|}.

(** Modelled from the spec: the validator [strict_discrete_set], which is
    not part of this file.  The value must be a member of the attribute's
    declared domain, the keys of its [values] table: one of the three names
    for [unit], a boolean for [cathode_enabled]. *)
Definition strict_discrete_set (v : value) (domain : list value) : result value :=
  if existsb (value_eqb v) domain then Ok v else Raise ValidationError.

(** Modelled from the spec: the mapping of a typed value to its raw encoding
    through the attribute's [values] table, which [Instrument.control]
    performs when [map_values] is set. *)
Fixpoint map_value (v : value) (table : list (value * Z)) : result Z :=
  match table with
  | [] => Raise KeyError
  | (k, raw) :: rest => if value_eqb v k then Ok raw else map_value v rest
  end.

(** Modelled from the spec: the setter that [Instrument.control] builds,
    which is not part of this file.  It validates the value, maps it to its
    raw encoding, formats the write command, hands it to [write], and, for
    an attribute that checks its acknowledgement, runs [check_errors]. *)
Definition setter (c : control) (v : value) : M unit :=
  checked <- lift (strict_discrete_set v (map fst (values c))) ;;
  raw <- lift (map_value checked (values c)) ;;
  _ <- write (set_command c raw) ;;
  if check_set_errors c
  then (_ <- check_errors ;; ret tt)
  else ret tt.

(** Loopback wiring of the transport: the frame sent last comes back as
    the next line, its terminator removed. *)
Definition loopback (self : instrument) : instrument :=
  {| adapter :=
       {| outbox := outbox (adapter self);
          inbox := removelast (last (outbox (adapter self)) [])
                     :: inbox (adapter self) |};
     address := address self |}.

(** [frame] is what the specification expects [write] to send for address
    [a] and [command]: three decimal digits that read as [a], the command,
    one checksum character and the terminator. *)
Definition address_frame (a : Z) (command frame : str) : Prop :=
  exists (ds : str) (chk : char),
    List.length ds = 3%nat /\
    forallb is_digit ds = true /\
    digits_value ds = a /\
    frame = ds ++ command ++ [chk] ++ write_termination.

(** The frame sent last. *)
Definition last_sent (self : instrument) : str :=
  last (outbox (adapter self)) [].

(** A method that leaves the [address] attribute as it found it. *)
Definition keeps_address {A} (m : M A) : Prop :=
  forall self : instrument, address (snd (m self)) = address self.

(** Printable ASCII: the codes 32 to 126. *)
Definition is_printable (c : char) : bool := ((32 <=? c) && (c <=? 126))%N.

(** A stand-in for the C library's [pow] on inputs where it is not called,
    that is, when the exponent field is at least 20. *)
Definition pow_not_called : float -> float -> float := fun _ _ => nan.

End SmartlineV1.
Import SmartlineV1.

(** ** Facts about the Python fragment *)

Lemma fold_add_shift (l : list Z) (a : Z) :
  fold_left Z.add l a = a + fold_left Z.add l 0.
Proof.
  revert a; induction l as [|x l IH]; intros a; simpl.
  - lia.
  - rewrite (IH (a + x)), (IH x). lia.
Qed.

Lemma sum_cons (x : Z) (l : list Z) : sum (x :: l) = x + sum l.
Proof. unfold sum; simpl. apply fold_add_shift. Qed.

Lemma sum_permutation (l l' : list Z) : Permutation l l' -> sum l = sum l'.
Proof.
  induction 1 as [|x l l' _ IH|x y l|l l' l'' _ IH1 _ IH2].
  - reflexivity.
  - rewrite !sum_cons, IH. reflexivity.
  - rewrite !sum_cons. lia.
  - congruence.
Qed.

Lemma chr_in_range (i : Z) :
  0 <= i < 0x110000 -> chr i = Ok (Z.to_N i).
Proof.
  intros [Hlo Hhi]. unfold chr.
  apply Z.leb_le in Hlo. apply Z.ltb_lt in Hhi.
  rewrite Hlo, Hhi. reflexivity.
Qed.

Lemma ord_chr (i : Z) (c : char) : chr i = Ok c -> ord c = i.
Proof.
  unfold chr, ord.
  destruct (0 <=? i) eqn:Hlo; simpl; [|discriminate].
  destruct (i <? 0x110000); [|discriminate].
  intros [= <-]. apply Z.leb_le in Hlo. apply Z2N.id. exact Hlo.
Qed.

(** ** The checksum *)

(** C2: on every string the checksum is defined (it never raises), it is the
    character whose ordinal is the sum of the ordinals modulo 64 plus 64, and
    that ordinal lies in [64, 127]. *)
Theorem checksum_value_and_range (s : str) :
  exists c : char,
    _checksum s = Ok c /\
    _checksum s = chr (sum (map ord s) mod 64 + 64) /\
    ord c = sum (map ord s) mod 64 + 64 /\
    64 <= ord c <= 127.
Proof.
  pose proof (Z.mod_pos_bound (sum (map ord s)) 64 ltac:(lia)) as Hm.
  exists (Z.to_N (sum (map ord s) mod 64 + 64)).
  assert (Hc : _checksum s = Ok (Z.to_N (sum (map ord s) mod 64 + 64))).
  { unfold _checksum. apply chr_in_range. lia. }
  split; [exact Hc|]. split; [reflexivity|].
  pose proof (ord_chr _ _ Hc) as Ho. unfold _checksum in Hc.
  split; [exact Ho|]. rewrite Ho. lia.
Qed.

(** C7: the checksum does not depend on the order of the characters: two
    strings that are permutations of one another have the same checksum. *)
Theorem checksum_permutation (s t : str) :
  Permutation s t -> _checksum s = _checksum t.
Proof.
  intros H. unfold _checksum.
  rewrite (sum_permutation (map ord s) (map ord t)); [reflexivity|].
  apply Permutation_map. exact H.
Qed.

Lemma checksum_permutation_witness :
  _checksum (lit "001M") = _checksum (lit "M100") /\
  _checksum (lit "001M") = Ok 94%N.
Proof.
  split.
  - apply (checksum_permutation (lit "001M") (lit "M100")).
    change (lit "001M") with ([48; 48; 49] ++ [77])%N.
    change (lit "M100") with ([77] ++ [49; 48; 48])%N.
    apply Permutation_sym.
    apply (@Permutation_trans _ _ ([77] ++ [48; 48; 49])%N).
    + apply Permutation_app_head. simpl.
      apply (@Permutation_trans _ _ [48; 49; 48]%N); constructor; constructor;
        apply Permutation_refl.
    + apply Permutation_app_comm.
  - reflexivity.
Defined.

(** ** Indexing and slicing against the list operations *)

Lemma len_app (s t : str) : len (s ++ t) = len s + len t.
Proof. unfold len. rewrite length_app. lia. Qed.

Lemma len_nonneg (s : str) : 0 <= len s.
Proof. unfold len. lia. Qed.

Lemma slice_to_minus_one (s : str) : slice s None (Some (-1)) = removelast s.
Proof.
  unfold slice. cbn [Z.ltb Z.compare]. simpl skipn.
  rewrite removelast_firstn_len. f_equal.
  unfold len. lia.
Qed.

Lemma slice_to_nonneg (s : str) (k : nat) :
  slice s None (Some (Z.of_nat k)) = firstn k s.
Proof.
  unfold slice, len. simpl skipn.
  destruct (Z.of_nat k <? 0) eqn:Hk; [apply Z.ltb_lt in Hk; lia|].
  rewrite Z.sub_0_r.
  destruct (Nat.le_gt_cases k (List.length s)) as [Hle|Hgt].
  - rewrite Z.min_l by lia. rewrite Nat2Z.id. reflexivity.
  - rewrite Z.min_r by lia. rewrite Nat2Z.id.
    rewrite !firstn_all2 by lia. reflexivity.
Qed.

Lemma slice_from_nonneg (s : str) (k : nat) :
  slice s (Some (Z.of_nat k)) None = skipn k s.
Proof.
  unfold slice, len.
  destruct (Z.of_nat k <? 0) eqn:Hk; [apply Z.ltb_lt in Hk; lia|].
  destruct (Nat.le_gt_cases k (List.length s)) as [Hle|Hgt].
  - rewrite Z.min_l by lia. rewrite Nat2Z.id.
    apply firstn_all2. rewrite length_skipn. lia.
  - rewrite Z.min_r by lia. rewrite Nat2Z.id.
    rewrite !skipn_all2 by lia. apply firstn_nil.
Qed.

Lemma getitem_nonneg (s : str) (k : nat) (c : char) :
  nth_error s k = Some c -> getitem s (Z.of_nat k) = Ok c.
Proof.
  intros Hk. unfold getitem, len.
  assert (Hlt : (k < List.length s)%nat) by (apply nth_error_Some; congruence).
  destruct (Z.of_nat k <? 0) eqn:Hneg; [apply Z.ltb_lt in Hneg; lia|].
  replace (0 <=? Z.of_nat k) with true by (symmetry; apply Z.leb_le; lia).
  replace (Z.of_nat k <? Z.of_nat (List.length s)) with true
    by (symmetry; apply Z.ltb_lt; lia).
  simpl. rewrite Nat2Z.id, Hk. reflexivity.
Qed.

Lemma getitem_minus_one_snoc (body : str) (c : char) :
  getitem (body ++ [c]) (-1) = Ok c.
Proof.
  unfold getitem. cbn [Z.ltb Z.compare].
  rewrite len_app. change (len [c]) with 1.
  pose proof (len_nonneg body) as Hb.
  replace (0 <=? -1 + (len body + 1)) with true by (symmetry; apply Z.leb_le; lia).
  replace (-1 + (len body + 1) <? len body + 1) with true
    by (symmetry; apply Z.ltb_lt; lia).
  simpl andb. cbv iota.
  replace (Z.to_nat (-1 + (len body + 1))) with (List.length body + 0)%nat
    by (unfold len; lia).
  rewrite nth_error_app2 by lia.
  replace (List.length body + 0 - List.length body)%nat with 0%nat by lia.
  reflexivity.
Qed.

Lemma getitem_minus_one_empty :
  getitem [] (-1) = Raise (IndexError (lit "string index out of range")).
Proof. reflexivity. Qed.

Lemma snoc_of_nonempty (s : str) :
  s <> [] -> s = removelast s ++ [last s 0%N].
Proof. intros H. apply app_removelast_last. exact H. Qed.

(** ** Reading a frame *)

(** The checksum character of a body, which [_checksum] always returns. *)
Lemma checksum_defined (s : str) :
  _checksum s = Ok (Z.to_N (sum (map ord s) mod 64 + 64)).
Proof.
  unfold _checksum. apply chr_in_range.
  pose proof (Z.mod_pos_bound (sum (map ord s)) 64 ltac:(lia)). lia.
Qed.

(** [read] on a pending line [body ++ [c]]: the line is consumed, and the
    outcome is decided by comparing [c] with the checksum of [body]. *)
Lemma read_frame (self : instrument) (body : str) (c chk : char) (rest : list str) :
  inbox (adapter self) = (body ++ [c]) :: rest ->
  _checksum body = Ok chk ->
  read self =
    (if (c =? chk)%N then Ok body else Raise (ChecksumError (body ++ [c]) chk c),
     {| adapter := {| outbox := outbox (adapter self); inbox := rest |};
        address := address self |}).
Proof.
  intros Hin Hchk.
  unfold read, bind, super_read, lift, ret, raise.
  rewrite Hin, slice_to_minus_one, removelast_last, Hchk, getitem_minus_one_snoc.
  destruct (c =? chk)%N; reflexivity.
Qed.

Lemma read_empty_line (self : instrument) (rest : list str) :
  inbox (adapter self) = [] :: rest ->
  fst (read self) = Raise (IndexError (lit "string index out of range")).
Proof.
  intros Hin. unfold read, bind, super_read, lift. rewrite Hin. reflexivity.
Qed.

Lemma read_nothing_pending (self : instrument) :
  inbox (adapter self) = [] -> read self = (Raise TimeoutError, self).
Proof.
  intros Hin. unfold read, bind, super_read. rewrite Hin. reflexivity.
Qed.

(** C3: for a received line of at least two characters, [read] fails with
    the checksum error exactly when the last character differs from the
    checksum recomputed over the preceding ones; the error then carries the
    line, the expected and the received checksum; otherwise [read] returns
    the line without its last character. *)
Theorem read_checksum_verdict (self : instrument) (msg : str) (rest : list str) :
  inbox (adapter self) = msg :: rest ->
  (2 <= List.length msg)%nat ->
  exists expected : char,
    _checksum (removelast msg) = Ok expected /\
    (fst (read self) = Raise (ChecksumError msg expected (last msg 0%N))
     <-> last msg 0%N <> expected) /\
    (last msg 0%N = expected -> fst (read self) = Ok (removelast msg)).
Proof.
  intros Hin Hlen.
  assert (Hne : msg <> []) by (destruct msg; [simpl in Hlen; lia|discriminate]).
  pose proof (snoc_of_nonempty msg Hne) as Hsnoc.
  set (body := removelast msg) in *. set (c := last msg 0%N) in *.
  exists (Z.to_N (sum (map ord body) mod 64 + 64)).
  set (chk := Z.to_N (sum (map ord body) mod 64 + 64)).
  pose proof (checksum_defined body) as Hchk. fold chk in Hchk.
  rewrite Hsnoc in Hin.
  rewrite (read_frame self body c chk rest Hin Hchk). simpl fst.
  split; [exact Hchk|].
  destruct (N.eqb_spec c chk) as [Heq|Hneq].
  - split; [split; [discriminate|contradiction]|reflexivity].
  - split; [split; [intros _; exact Hneq|intros _; rewrite <- Hsnoc; reflexivity]|].
    contradiction.
Qed.

Lemma read_checksum_verdict_witness :
  exists expected : char,
    _checksum (lit "001M") = Ok expected /\
    (fst (read (__init__ {| outbox := []; inbox := [lit "001M^"] |} 1))
       = Raise (ChecksumError (lit "001M^") expected 94%N)
     <-> 94%N <> expected) /\
    (94%N = expected ->
     fst (read (__init__ {| outbox := []; inbox := [lit "001M^"] |} 1))
       = Ok (lit "001M")).
Proof.
  apply (read_checksum_verdict
           (__init__ {| outbox := []; inbox := [lit "001M^"] |} 1)
           (lit "001M^") []).
  - reflexivity.
  - simpl. lia.
Defined.

(** C4, as the code has it: a received line of a single character never
    makes [read] raise an index fault.  [read] returns the empty message when
    the character is ["@"], the checksum of the empty body, and otherwise
    fails with the checksum error carrying the line, ["@"] and the received
    character. *)
Theorem read_single_character (self : instrument) (c : char) (rest : list str) :
  inbox (adapter self) = [c] :: rest ->
  fst (read self) =
    (if (c =? 64)%N then Ok [] else Raise (ChecksumError [c] 64%N c)) /\
  (forall msg : str, fst (read self) <> Raise (IndexError msg)).
Proof.
  intros Hin.
  assert (Hr : fst (read self) =
               if (c =? 64)%N then Ok [] else Raise (ChecksumError [c] 64%N c)).
  { rewrite (read_frame self [] c 64%N rest Hin); reflexivity. }
  split; [exact Hr|].
  intros msg. rewrite Hr.
  destruct (c =? 64)%N; unfold ChecksumError; discriminate.
Qed.

Lemma read_single_character_witness :
  fst (read (__init__ {| outbox := []; inbox := [lit "x"] |} 1)) =
    Raise (ChecksumError (lit "x") 64%N 120%N) /\
  (forall msg : str,
     fst (read (__init__ {| outbox := []; inbox := [lit "x"] |} 1))
       <> Raise (IndexError msg)).
Proof.
  apply (read_single_character
           (__init__ {| outbox := []; inbox := [lit "x"] |} 1) 120%N []).
  reflexivity.
Defined.

(** C4 as stated fails on the one-character line ["@"]: [read] accepts it
    and returns the empty message, so it does not fail at all, let alone with
    the too-short error. *)
Lemma read_at_sign_line_succeeds :
  fst (read (__init__ {| outbox := []; inbox := [lit "@"] |} 1)) = Ok [] /\
  ~ (exists reply : str,
       fst (read (__init__ {| outbox := []; inbox := [lit "@"] |} 1))
         = Raise (FrameTooShortError reply)).
Proof.
  split; [reflexivity|].
  intros [reply H]. vm_compute in H. discriminate H.
Qed.

(** ** Writing a frame *)

Lemma write_sends (self : instrument) (command : str) :
  write command self =
    (Ok tt,
     {| adapter :=
          {| outbox :=
               outbox (adapter self)
                 ++ [((format_d 3 (address self) ++ command)
                        ++ [Z.to_N (sum (map ord (format_d 3 (address self) ++ command))
                                      mod 64 + 64)])
                       ++ write_termination];
             inbox := inbox (adapter self) |};
        address := address self |}).
Proof.
  unfold write, bind, self_address, lift, super_write.
  rewrite checksum_defined. reflexivity.
Qed.

(** What was written comes back through the loopback as the frame body:
    this holds for every address and command. *)
Lemma loopback_read_write (self : instrument) (command : str) :
  fst (write command self) = Ok tt /\
  fst (read (loopback (snd (write command self))))
    = Ok (format_d 3 (address self) ++ command).
Proof.
  rewrite write_sends. split; [reflexivity|].
  cbn [snd].
  set (body := format_d 3 (address self) ++ command).
  set (chk := Z.to_N (sum (map ord body) mod 64 + 64)).
  erewrite (read_frame _ body chk chk).
  - simpl fst. rewrite N.eqb_refl. reflexivity.
  - unfold loopback. cbn [adapter outbox inbox].
    rewrite last_last. unfold write_termination. rewrite removelast_last.
    reflexivity.
  - apply checksum_defined.
Qed.

(** The three digits of an address between 0 and 999. *)
Lemma format_d_3_table :
  forallb
    (fun n : nat =>
       let a := Z.of_nat n in
       if list_eq_dec N.eq_dec (format_d 3 a)
            [Z.to_N (48 + a / 100); Z.to_N (48 + (a / 10) mod 10);
             Z.to_N (48 + a mod 10)]
       then true else false)
    (seq 0 1000) = true.
Proof. vm_compute. reflexivity. Qed.

Lemma format_d_3_digits (a : Z) :
  0 <= a <= 999 ->
  format_d 3 a =
    [Z.to_N (48 + a / 100); Z.to_N (48 + (a / 10) mod 10); Z.to_N (48 + a mod 10)].
Proof.
  intros Ha.
  pose proof (proj1 (forallb_forall _ _) format_d_3_table (Z.to_nat a)) as H.
  cbv beta zeta in H. rewrite Z2Nat.id in H by lia.
  assert (Hin : In (Z.to_nat a) (seq 0 1000)) by (apply in_seq; lia).
  specialize (H Hin).
  destruct (list_eq_dec N.eq_dec (format_d 3 a) _) as [E|_]; [exact E|discriminate].
Qed.

(** C1: for an address from 1 to 15, any command letter and any data of
    printable ASCII characters, the frame that [write] sends, fed back to
    [read] without its terminator, decodes to the original body: the address
    padded with zeros to three digits, the letter and the data. *)
Theorem loopback_roundtrip (a : Adapter) (addr : Z) (letter : char) (data : str) :
  1 <= addr <= 15 ->
  forallb is_printable data = true ->
  let self := __init__ a addr in
  let body := [48%N; Z.to_N (48 + addr / 10); Z.to_N (48 + addr mod 10)]
                ++ letter :: data in
  fst (write (letter :: data) self) = Ok tt /\
  fst (read (loopback (snd (write (letter :: data) self)))) = Ok body.
Proof.
  intros Haddr _ self body.
  destruct (loopback_read_write self (letter :: data)) as [Hw Hr].
  split; [exact Hw|].
  rewrite Hr. unfold body, self. cbn [address __init__].
  rewrite format_d_3_digits by lia.
  replace (addr / 100) with 0 by (symmetry; apply Z.div_small; lia).
  replace ((addr / 10) mod 10) with (addr / 10).
  - reflexivity.
  - symmetry. apply Z.mod_small.
    split; [apply Z.div_pos; lia|apply Z.div_lt_upper_bound; lia].
Qed.

Lemma loopback_roundtrip_witness :
  fst (write (lit "M") (__init__ {| outbox := []; inbox := [] |} 3)) = Ok tt /\
  fst (read (loopback (snd (write (lit "M")
                             (__init__ {| outbox := []; inbox := [] |} 3)))))
    = Ok (lit "003M").
Proof.
  apply (loopback_roundtrip {| outbox := []; inbox := [] |} 3 77%N []).
  - lia.
  - reflexivity.
Defined.

(** C5, as the code has it: for an address from 0 to 999, whether or not it
    is one of the valid addresses 1 to 15, [write] sends a frame that starts
    with exactly three decimal digits reading as the address, followed by the
    command, the checksum and the terminator. *)
Theorem write_address_three_digits (self : instrument) (command : str) :
  0 <= address self <= 999 ->
  fst (write command self) = Ok tt /\
  address_frame (address self) command (last_sent (snd (write command self))).
Proof.
  intros Ha. rewrite write_sends. split; [reflexivity|].
  unfold last_sent. cbn [snd adapter outbox]. rewrite last_last.
  rewrite format_d_3_digits by exact Ha.
  set (a := address self) in *.
  assert (H100 : 0 <= a / 100 <= 9).
  { split; [apply Z.div_pos; lia|].
    apply Z.lt_succ_r. apply Z.div_lt_upper_bound; lia. }
  pose proof (Z.mod_pos_bound (a / 10) 10 ltac:(lia)) as H10.
  pose proof (Z.mod_pos_bound a 10 ltac:(lia)) as H1.
  eexists _, _. split; [|split; [|split]]; [| | |rewrite <- !app_assoc; reflexivity].
  - reflexivity.
  - unfold is_digit. cbn [forallb]. rewrite !andb_true_r.
    repeat (apply andb_true_intro; split); apply N.leb_le; lia.
  - unfold digits_value, ord. cbn [fold_left].
    rewrite !Z2N.id by lia.
    pose proof (Z.div_mod a 10 ltac:(lia)) as E1.
    pose proof (Z.div_mod (a / 10) 10 ltac:(lia)) as E2.
    pose proof (Z.div_div a 10 10 ltac:(lia) ltac:(lia)) as E3.
    change (10 * 10) with 100 in E3. lia.
Qed.

Lemma write_address_three_digits_witness :
  fst (write (lit "M") (__init__ {| outbox := []; inbox := [] |} 16)) = Ok tt /\
  address_frame 16 (lit "M")
    (last_sent (snd (write (lit "M") (__init__ {| outbox := []; inbox := [] |} 16)))).
Proof.
  apply (write_address_three_digits
           (__init__ {| outbox := []; inbox := [] |} 16) (lit "M")).
  simpl. lia.
Defined.

(** C5 as stated fails at address 1000, which the format writes with four
    digits: the frame sent is ["1000MN"] and the terminator, not three digits
    followed by the command. *)
Lemma write_address_1000_four_digits :
  last_sent (snd (write (lit "M") (__init__ {| outbox := []; inbox := [] |} 1000)))
    = lit "1000MN" ++ write_termination /\
  ~ address_frame 1000 (lit "M")
      (last_sent (snd (write (lit "M")
                        (__init__ {| outbox := []; inbox := [] |} 1000)))).
Proof.
  split; [reflexivity|].
  intros (ds & chk & Hlen & _ & _ & Hf).
  apply (f_equal (@List.length char)) in Hf.
  rewrite !length_app, Hlen in Hf. vm_compute in Hf. discriminate Hf.
Qed.

(** A negative address is written with its sign, which is no digit. *)
Lemma write_address_minus_one_sign :
  last_sent (snd (write (lit "M") (__init__ {| outbox := []; inbox := [] |} (-1))))
    = lit "-01M[" ++ write_termination.
Proof. reflexivity. Qed.

(** ** The acknowledgement check *)

(** C9: once the acknowledgement has been decoded to [reply], [check_errors]
    fails with the too-short error when [reply] has fewer than four
    characters, fails with the device error when the character at index 3 is
    ["N"] or ["X"], and otherwise succeeds with an empty list of errors. *)
Theorem check_errors_verdict (self self' : instrument) (reply : str) :
  read self = (Ok reply, self') ->
  ((List.length reply < 4)%nat ->
   fst (check_errors self) = Raise (FrameTooShortError reply)) /\
  (forall echo : char,
     nth_error reply 3 = Some echo ->
     echo = 78%N \/ echo = 88%N ->
     fst (check_errors self) = Raise (DeviceError reply)) /\
  (forall echo : char,
     nth_error reply 3 = Some echo ->
     echo <> 78%N -> echo <> 88%N ->
     fst (check_errors self) = Ok []).
Proof.
  intros Hread. unfold check_errors, bind. rewrite Hread.
  split; [|split].
  - intros Hlen.
    replace (len reply <? 4) with true
      by (symmetry; apply Z.ltb_lt; unfold len; lia).
    reflexivity.
  - intros echo Hnth Hecho.
    assert (Hlen : (3 < List.length reply)%nat)
      by (apply nth_error_Some; congruence).
    replace (len reply <? 4) with false
      by (symmetry; apply Z.ltb_ge; unfold len; lia).
    pose proof (getitem_nonneg reply 3 echo Hnth) as Hget.
    change (Z.of_nat 3) with 3 in Hget. unfold lift. rewrite Hget.
    destruct Hecho as [-> | ->]; reflexivity.
  - intros echo Hnth HN HX.
    assert (Hlen : (3 < List.length reply)%nat)
      by (apply nth_error_Some; congruence).
    replace (len reply <? 4) with false
      by (symmetry; apply Z.ltb_ge; unfold len; lia).
    pose proof (getitem_nonneg reply 3 echo Hnth) as Hget.
    change (Z.of_nat 3) with 3 in Hget. unfold lift. rewrite Hget.
    cbn [existsb].
    apply N.eqb_neq in HN, HX. rewrite HN, HX. reflexivity.
Qed.

Lemma check_errors_verdict_witness :
  fst (check_errors (__init__ {| outbox := []; inbox := [lit "001N_"] |} 1))
    = Raise (DeviceError (lit "001N")).
Proof.
  destruct (check_errors_verdict
              (__init__ {| outbox := []; inbox := [lit "001N_"] |} 1)
              (__init__ {| outbox := []; inbox := [] |} 1)
              (lit "001N") eq_refl) as (_ & Hdevice & _).
  apply (Hdevice 78%N).
  - reflexivity.
  - left. reflexivity.
Defined.

Lemma check_errors_accepts_echo :
  fst (check_errors (__init__ {| outbox := []; inbox := [lit "001IZ"] |} 1))
    = Ok [].
Proof. reflexivity. Qed.

Lemma check_errors_short_reply :
  fst (check_errors (__init__ {| outbox := []; inbox := [lit "01a"] |} 1))
    = Raise (FrameTooShortError (lit "01")).
Proof. reflexivity. Qed.

(** ** The address attribute *)

Lemma keeps_address_ret {A} (a : A) : keeps_address (ret a).
Proof. intros self. reflexivity. Qed.

Lemma keeps_address_raise {A} (e : exn) : keeps_address (@raise A e).
Proof. intros self. reflexivity. Qed.

Lemma keeps_address_lift {A} (r : result A) : keeps_address (lift r).
Proof. intros self. reflexivity. Qed.

Lemma keeps_address_bind {A B} (m : M A) (k : A -> M B) :
  keeps_address m -> (forall a, keeps_address (k a)) -> keeps_address (bind m k).
Proof.
  intros Hm Hk self. unfold bind.
  specialize (Hm self). destruct (m self) as [[a|e] self1]; simpl in Hm.
  - rewrite Hk. exact Hm.
  - exact Hm.
Qed.

Lemma keeps_address_self_address : keeps_address self_address.
Proof. intros self. reflexivity. Qed.

Lemma keeps_address_super_write (command : str) : keeps_address (super_write command).
Proof. intros self. reflexivity. Qed.

Lemma keeps_address_super_read : keeps_address super_read.
Proof.
  intros self. unfold super_read.
  destruct (inbox (adapter self)); reflexivity.
Qed.

Create HintDb frame discriminated.
#[local] Hint Resolve keeps_address_ret keeps_address_raise keeps_address_lift
  keeps_address_self_address keeps_address_super_write keeps_address_super_read
  : frame.

Ltac keeps_address_step :=
  repeat first
    [ apply keeps_address_bind; [|intros ?]
    | match goal with |- keeps_address (if ?b then _ else _) => destruct b end
    | solve [auto with frame] ].

Lemma keeps_address_read : keeps_address read.
Proof. unfold read. keeps_address_step. Qed.

Lemma keeps_address_write (command : str) : keeps_address (write command).
Proof. unfold write. keeps_address_step. Qed.

Lemma keeps_address_check_errors : keeps_address check_errors.
Proof.
  unfold check_errors.
  apply keeps_address_bind; [apply keeps_address_read|intros reply].
  keeps_address_step.
Qed.

Lemma keeps_address_setter (c : control) (v : value) : keeps_address (setter c v).
Proof.
  unfold setter.
  apply keeps_address_bind; [auto with frame|intros checked].
  apply keeps_address_bind; [auto with frame|intros raw].
  apply keeps_address_bind; [apply keeps_address_write|intros _].
  destruct (check_set_errors c); [|auto with frame].
  apply keeps_address_bind; [apply keeps_address_check_errors|intros _].
  auto with frame.
Qed.

(** C10: the address given at construction is the instance's address, and
    [write], [read] and [check_errors] each leave it unchanged, whether they
    return or raise. *)
Theorem address_unchanged (a : Adapter) (addr : Z) (self : instrument) (command : str) :
  address (__init__ a addr) = addr /\
  address (snd (write command self)) = address self /\
  address (snd (read self)) = address self /\
  address (snd (check_errors self)) = address self.
Proof.
  split; [reflexivity|].
  split; [apply keeps_address_write|].
  split; [apply keeps_address_read|apply keeps_address_check_errors].
Qed.

(** ** Writing an attribute *)

Lemma value_eqb_eq (v w : value) : value_eqb v w = true <-> v = w.
Proof.
  destruct v as [s|a|i], w as [t|b|j]; simpl; try (split; discriminate).
  - destruct (list_eq_dec N.eq_dec s t) as [->|Hne].
    + split; reflexivity.
    + split; [discriminate|]. intros [= E]. contradiction.
  - split.
    + intros H. apply Bool.eqb_prop in H. congruence.
    + intros [= ->]. apply Bool.eqb_reflx.
  - split.
    + intros H. apply Z.eqb_eq in H. congruence.
    + intros [= ->]. apply Z.eqb_refl.
Qed.

Lemma strict_discrete_set_rejects (v : value) (domain : list value) :
  ~ In v domain -> strict_discrete_set v domain = Raise ValidationError.
Proof.
  intros Hout. unfold strict_discrete_set.
  destruct (existsb (value_eqb v) domain) eqn:E; [|reflexivity].
  apply existsb_exists in E. destruct E as (w & Hw & Heq).
  apply value_eqb_eq in Heq. subst w. contradiction.
Qed.

(** A value outside the declared domain stops the setter at validation, with
    the instance, its transport included, exactly as it was. *)
Lemma setter_rejects (c : control) (v : value) (self : instrument) :
  ~ In v (map fst (values c)) ->
  setter c v self = (Raise ValidationError, self).
Proof.
  intros Hout. unfold setter, bind, lift.
  rewrite (strict_discrete_set_rejects _ _ Hout). reflexivity.
Qed.

(** C8: writing [unit] with a value that is none of the three unit names, or
    [cathode_enabled] with a value that is not a boolean, fails with the
    validation error and leaves the instance untouched: nothing has been
    handed to the transport. *)
Theorem setter_validates_before_sending (v : value) (self : instrument) :
  (v <> VStr (lit "mbar") -> v <> VStr (lit "Torr") -> v <> VStr (lit "hPa") ->
   setter unit_ v self = (Raise ValidationError, self) /\
   outbox (adapter (snd (setter unit_ v self))) = outbox (adapter self)) /\
  ((forall b : bool, v <> VBool b) ->
   setter cathode_enabled v self = (Raise ValidationError, self) /\
   outbox (adapter (snd (setter cathode_enabled v self))) = outbox (adapter self)).
Proof.
  split.
  - intros H0 H1 H2.
    assert (E : setter unit_ v self = (Raise ValidationError, self)).
    { apply setter_rejects. simpl. intros [H|[H|[H|[]]]]; congruence. }
    rewrite E. split; reflexivity.
  - intros Hb.
    assert (E : setter cathode_enabled v self = (Raise ValidationError, self)).
    { apply setter_rejects. simpl. intros [H|[H|[]]]; symmetry in H;
        [exact (Hb true H)|exact (Hb false H)]. }
    rewrite E. split; reflexivity.
Qed.

Lemma setter_validates_before_sending_witness :
  setter unit_ (VStr (lit "Pa")) (__init__ {| outbox := []; inbox := [] |} 1)
    = (Raise ValidationError, __init__ {| outbox := []; inbox := [] |} 1) /\
  setter cathode_enabled (VStr (lit "on")) (__init__ {| outbox := []; inbox := [] |} 1)
    = (Raise ValidationError, __init__ {| outbox := []; inbox := [] |} 1).
Proof.
  split.
  - apply (setter_validates_before_sending
             (VStr (lit "Pa")) (__init__ {| outbox := []; inbox := [] |} 1));
      discriminate.
  - apply (setter_validates_before_sending
             (VStr (lit "on")) (__init__ {| outbox := []; inbox := [] |} 1)).
    intros b. discriminate.
Defined.

(** A value of the domain is mapped, formatted and sent. *)
Lemma setter_unit_torr :
  setter unit_ (VStr (lit "Torr")) (__init__ {| outbox := []; inbox := [] |} 1)
    = (Ok tt,
       __init__ {| outbox := [lit "001u000001g" ++ write_termination];
                   inbox := [] |} 1).
Proof. reflexivity. Qed.

Lemma setter_cathode_on_acknowledged :
  setter cathode_enabled (VBool true)
    (__init__ {| outbox := []; inbox := [lit "001i1k"] |} 1)
    = (Ok tt,
       __init__ {| outbox := [lit "001i1k" ++ write_termination];
                   inbox := [] |} 1).
Proof. reflexivity. Qed.

(** ** Decoding a pressure *)

Section PressureFacts.

Variable libm_pow : float -> float -> float.

Lemma firstn_of_prefix (m e : str) (k : nat) :
  List.length m = k -> firstn k (m ++ e) = m.
Proof.
  intros <-. rewrite firstn_app, Nat.sub_diag, firstn_all. simpl.
  apply app_nil_r.
Qed.

Lemma skipn_of_prefix (m e : str) (k : nat) :
  List.length m = k -> skipn k (m ++ e) = e.
Proof.
  intros <-. rewrite skipn_app, Nat.sub_diag, skipn_all. reflexivity.
Qed.

(** The decode function splits the field after its fourth character. *)
Lemma pressure_get_process_split (mantissa exponent : str) :
  List.length mantissa = 4%nat ->
  pressure_get_process libm_pow (mantissa ++ exponent)
    = pressure_formula libm_pow mantissa exponent.
Proof.
  intros Hlen. unfold pressure_get_process, pressure_formula.
  change 4 with (Z.of_nat 4).
  rewrite slice_to_nonneg, slice_from_nonneg.
  rewrite (firstn_of_prefix _ _ 4 Hlen), (skipn_of_prefix _ _ 4 Hlen).
  reflexivity.
Qed.

End PressureFacts.

Lemma float_of_str_digits (s : str) :
  s <> [] -> forallb is_digit s = true -> (List.length s <= 15)%nat ->
  float_of_str s = float_of_int (digits_value s).
Proof.
  intros Hne Hd Hlen. unfold float_of_str.
  destruct s as [|c s]; [contradiction|].
  rewrite Hd. apply Nat.leb_le in Hlen. rewrite Hlen. reflexivity.
Qed.

Lemma int_of_str_digits (s : str) :
  s <> [] -> forallb is_digit s = true -> (List.length s <= 4300)%nat ->
  int_of_str s = Ok (digits_value s).
Proof.
  intros Hne Hd Hlen. unfold int_of_str.
  destruct s as [|c s]; [contradiction|].
  rewrite Hd. apply Nat.leb_le in Hlen. rewrite Hlen. reflexivity.
Qed.

(** C6, as the code has it: on a field made of a four-digit mantissa followed
    by a decimal exponent, the decode function computes
    [float(mantissa) / 1000 * 10 ** (int(exponent) - 20)], where
    [float(mantissa)] is the mantissa's integer value as a float and
    [int(exponent)] the exponent's integer value; the field ["100020"]
    decodes to 1.0, and the field ["050020"], whose mantissa is ["0500"],
    decodes to 0.5. *)
Theorem pressure_decode (libm_pow : float -> float -> float) (mantissa exponent : str) :
  List.length mantissa = 4%nat ->
  forallb is_digit mantissa = true ->
  exponent <> [] ->
  forallb is_digit exponent = true ->
  pressure_get_process libm_pow (mantissa ++ exponent)
    = pressure_formula libm_pow mantissa exponent /\
  float_of_str mantissa = float_of_int (digits_value mantissa) /\
  ((List.length exponent <= 4300)%nat ->
   int_of_str exponent = Ok (digits_value exponent)) /\
  pressure_get_process libm_pow (lit "100020") = Ok 1%float /\
  pressure_get_process libm_pow (lit "050020") = Ok 0.5%float.
Proof.
  intros Hlen Hm He Hd.
  split; [apply pressure_get_process_split; exact Hlen|].
  split.
  { apply float_of_str_digits; [|exact Hm|lia].
    intros ->. discriminate Hlen. }
  split; [intros Hshort; apply int_of_str_digits; assumption|].
  split; reflexivity.
Qed.

Lemma pressure_decode_witness :
  pressure_get_process pow_not_called (lit "1234" ++ lit "21")
    = pressure_formula pow_not_called (lit "1234") (lit "21") /\
  float_of_str (lit "1234") = float_of_int (digits_value (lit "1234")) /\
  ((List.length (lit "21") <= 4300)%nat ->
   int_of_str (lit "21") = Ok (digits_value (lit "21"))) /\
  pressure_get_process pow_not_called (lit "100020") = Ok 1%float /\
  pressure_get_process pow_not_called (lit "050020") = Ok 0.5%float.
Proof.
  apply (pressure_decode pow_not_called (lit "1234") (lit "21")).
  - reflexivity.
  - reflexivity.
  - discriminate.
  - reflexivity.
Defined.

(** On the field ["123421"] the formula gives the binary64 nearest to
    12.34. *)
Lemma pressure_of_123421 (libm_pow : float -> float -> float) :
  pressure_get_process libm_pow (lit "123421") = Ok 0x1.8ae147ae147aep+3%float.
Proof. reflexivity. Qed.

(** The literal 0.05 denotes the binary64 nearest to it, which is also the
    rounded quotient of 5 by 100. *)
Lemma nearest_to_0_05 : (5 / 100)%float = 0x1.999999999999ap-5%float.
Proof. vm_compute. reflexivity. Qed.

(** The reply ["003M050020"] of the device at address 3, once its four
    leading characters are stripped, decodes to 0.5. *)
Lemma pressure_of_reply_003M050020 (libm_pow : float -> float -> float) :
  preprocess_reply (lit "003M050020") = lit "050020" /\
  pressure_get_process libm_pow (preprocess_reply (lit "003M050020"))
    = Ok 0.5%float.
Proof. split; reflexivity. Qed.

(** C6 as stated fails on its second example: ["050020"] decodes to 0.5,
    which is not the binary64 nearest to 0.05. *)
Lemma pressure_050020_is_not_0_05 :
  pressure_get_process pow_not_called (lit "050020") = Ok 0.5%float /\
  pressure_get_process pow_not_called (lit "050020")
    <> Ok 0x1.999999999999ap-5%float.
Proof.
  split; [reflexivity|].
  intros H.
  pose proof (f_equal (fun r : result float =>
                         match r with
                         | Ok x => PrimFloat.eqb x 0.5%float
                         | Raise _ => false
                         end) H) as B.
  vm_compute in B. discriminate B.
Qed.

(** ** Further properties of the checksum *)

Lemma sum_app (l l' : list Z) : sum (l ++ l') = sum l + sum l'.
Proof.
  induction l as [|x l IH]; simpl app.
  - unfold sum at 2. simpl. lia.
  - rewrite !sum_cons, IH. lia.
Qed.

Lemma sum_ord_substitute (pre post : str) (c : char) :
  sum (map ord (pre ++ c :: post))
    = sum (map ord pre) + ord c + sum (map ord post).
Proof.
  rewrite map_app, sum_app. simpl map. rewrite sum_cons. lia.
Qed.

Lemma checksum_char_eq_iff (a b : Z) :
  Z.to_N (a mod 64 + 64) = Z.to_N (b mod 64 + 64) <-> a mod 64 = b mod 64.
Proof.
  pose proof (Z.mod_pos_bound a 64 ltac:(lia)).
  pose proof (Z.mod_pos_bound b 64 ltac:(lia)).
  split; intros E; [|rewrite E; reflexivity].
  apply (f_equal Z.of_N) in E. rewrite !Z2N.id in E by lia. lia.
Qed.

Lemma mod64_shift (a d : Z) : (a + d) mod 64 = a mod 64 <-> d mod 64 = 0.
Proof. split; intros E; Z.div_mod_to_equations; lia. Qed.

(** X1: Two bodies have the same checksum exactly when the sums of their
    character codes agree modulo 64: this is all the checksum tells apart. *)
Theorem checksum_equal_iff (s t : str) :
  _checksum s = _checksum t
  <-> sum (map ord s) mod 64 = sum (map ord t) mod 64.
Proof.
  rewrite !checksum_defined. split.
  - intros [= E]. apply checksum_char_eq_iff. exact E.
  - intros E. f_equal. apply checksum_char_eq_iff. exact E.
Qed.

(** ** Further properties of [read] *)

Lemma read_empty_frame (self : instrument) (rest : list str) :
  inbox (adapter self) = [] :: rest ->
  read self =
    (Raise (IndexError (lit "string index out of range")),
     {| adapter := {| outbox := outbox (adapter self); inbox := rest |};
        address := address self |}).
Proof.
  intros Hin. unfold read, bind, super_read, lift. rewrite Hin. reflexivity.
Qed.

(** The three ways [read] can go, by what is pending. *)
Lemma read_cases (self : instrument) :
  (inbox (adapter self) = [] /\ read self = (Raise TimeoutError, self)) \/
  (exists rest,
     inbox (adapter self) = [] :: rest /\
     read self =
       (Raise (IndexError (lit "string index out of range")),
        {| adapter := {| outbox := outbox (adapter self); inbox := rest |};
           address := address self |})) \/
  (exists body c chk rest,
     inbox (adapter self) = (body ++ [c]) :: rest /\
     _checksum body = Ok chk /\
     read self =
       (if (c =? chk)%N then Ok body
        else Raise (ChecksumError (body ++ [c]) chk c),
        {| adapter := {| outbox := outbox (adapter self); inbox := rest |};
           address := address self |})).
Proof.
  destruct (inbox (adapter self)) as [|msg rest] eqn:Hin.
  - left. split; [reflexivity|]. apply read_nothing_pending. exact Hin.
  - right. destruct msg as [|c0 msg0] eqn:Hmsg.
    + left. exists rest. split; [reflexivity|].
      apply read_empty_frame. exact Hin.
    + right. rewrite <- Hmsg in *.
      assert (Hne : msg <> []) by (rewrite Hmsg; discriminate).
      pose proof (snoc_of_nonempty msg Hne) as Hsnoc.
      exists (removelast msg), (last msg 0%N),
        (Z.to_N (sum (map ord (removelast msg)) mod 64 + 64)), rest.
      split; [rewrite <- Hsnoc; reflexivity|].
      split; [apply checksum_defined|].
      apply read_frame; [|apply checksum_defined].
      rewrite <- Hsnoc. exact Hin.
Qed.

(** X2: A single substituted character in the body of a valid frame goes
    unnoticed exactly when the two character codes differ by a multiple of
    64; otherwise [read] fails with the checksum error, which reports the
    checksum of the altered body and the one received. *)
Theorem read_detects_substitution
  (self : instrument) (pre post : str) (c c' chk : char) (rest : list str) :
  _checksum (pre ++ c :: post) = Ok chk ->
  inbox (adapter self) = ((pre ++ c' :: post) ++ [chk]) :: rest ->
  ((ord c' - ord c) mod 64 = 0 ->
   fst (read self) = Ok (pre ++ c' :: post)) /\
  ((ord c' - ord c) mod 64 <> 0 ->
   exists expected : char,
     _checksum (pre ++ c' :: post) = Ok expected /\
     expected <> chk /\
     fst (read self)
       = Raise (ChecksumError ((pre ++ c' :: post) ++ [chk]) expected chk)).
Proof.
  intros Hchk Hin.
  rewrite checksum_defined in Hchk. injection Hchk as Hchk.
  pose proof (checksum_defined (pre ++ c' :: post)) as Hexp.
  rewrite (read_frame self _ chk _ rest Hin Hexp). cbn [fst].
  assert (Hiff : chk = Z.to_N (sum (map ord (pre ++ c' :: post)) mod 64 + 64)
                 <-> (ord c' - ord c) mod 64 = 0).
  { rewrite <- Hchk. rewrite checksum_char_eq_iff.
    rewrite !sum_ord_substitute.
    replace (sum (map ord pre) + ord c' + sum (map ord post))
      with (sum (map ord pre) + ord c + sum (map ord post) + (ord c' - ord c))
      by lia.
    split; intros E.
    - apply (mod64_shift (sum (map ord pre) + ord c + sum (map ord post))).
      symmetry. exact E.
    - symmetry. apply mod64_shift. exact E. }
  split.
  - intros Hd. apply Hiff in Hd. rewrite <- Hd, N.eqb_refl. reflexivity.
  - intros Hd. eexists. split; [exact Hexp|].
    assert (Hne : Z.to_N (sum (map ord (pre ++ c' :: post)) mod 64 + 64) <> chk).
    { intros E. apply Hd, Hiff. symmetry. exact E. }
    split; [exact Hne|].
    destruct (N.eqb_spec chk (Z.to_N (sum (map ord (pre ++ c' :: post)) mod 64 + 64)))
      as [E|_]; [symmetry in E; contradiction|reflexivity].
Qed.

Lemma read_detects_substitution_witness :
  fst (read (__init__ {| outbox := []; inbox := [lit "001m^"] |} 1))
    = Raise (ChecksumError (lit "001m^") 126%N 94%N) /\
  fst (read (__init__ {| outbox := []; inbox := [lit "0p1M^"] |} 1))
    = Ok (lit "0p1M").
Proof.
  split.
  - destruct (read_detects_substitution
                (__init__ {| outbox := []; inbox := [lit "001m^"] |} 1)
                (lit "001") [] 77%N 109%N 94%N [] eq_refl eq_refl)
      as [_ Hbad].
    destruct (Hbad ltac:(vm_compute; discriminate)) as (expected & Hexp & _ & Hr).
    injection Hexp as <-. exact Hr.
  - apply (read_detects_substitution
             (__init__ {| outbox := []; inbox := [lit "0p1M^"] |} 1)
             (lit "0") (lit "1M") 48%N 112%N 94%N [] eq_refl eq_refl).
    reflexivity.
Defined.

(** X3: Whatever [read] returns has been checked: the line it consumed was the
    returned message followed by that message's checksum, and the instance is
    left with that one line removed. *)
Theorem read_returns_only_checked (self self' : instrument) (body : str) :
  read self = (Ok body, self') ->
  exists (c : char) (rest : list str),
    inbox (adapter self) = (body ++ [c]) :: rest /\
    _checksum body = Ok c /\
    self' = {| adapter := {| outbox := outbox (adapter self); inbox := rest |};
               address := address self |}.
Proof.
  intros Hread.
  destruct (read_cases self)
    as [[_ Hr]|[(rest & _ & Hr)|(body0 & c & chk & rest & Hin & Hchk & Hr)]];
    rewrite Hr in Hread; try discriminate Hread.
  destruct (N.eqb_spec c chk) as [->|_]; [|discriminate Hread].
  injection Hread as -> <-.
  exists chk, rest. split; [exact Hin|]. split; [exact Hchk|reflexivity].
Qed.

Lemma read_returns_only_checked_witness :
  exists (c : char) (rest : list str),
    [lit "001M^"; lit "later"] = (lit "001M" ++ [c]) :: rest /\
    _checksum (lit "001M") = Ok c /\
    __init__ {| outbox := []; inbox := [lit "later"] |} 1
      = {| adapter := {| outbox := []; inbox := rest |}; address := 1 |}.
Proof.
  apply (read_returns_only_checked
           (__init__ {| outbox := []; inbox := [lit "001M^"; lit "later"] |} 1)
           (__init__ {| outbox := []; inbox := [lit "later"] |} 1)
           (lit "001M")).
  reflexivity.
Defined.

(** X4: [read] sends nothing and takes exactly the first pending line, whether it
    returns the message or raises. *)
Theorem read_transport_effect (self : instrument) :
  outbox (adapter (snd (read self))) = outbox (adapter self) /\
  inbox (adapter (snd (read self))) = tl (inbox (adapter self)).
Proof.
  destruct (read_cases self)
    as [[Hin Hr]|[(rest & Hin & Hr)|(body & c & chk & rest & Hin & _ & Hr)]];
    rewrite Hr; cbn [snd adapter inbox outbox]; rewrite Hin; split; reflexivity.
Qed.

(** X5: An empty received line is not reported as a checksum error: [msg[-1]]
    raises the index error, after the line has been taken from the
    transport. *)
Theorem read_empty_line_raises (self : instrument) (rest : list str) :
  inbox (adapter self) = [] :: rest ->
  fst (read self) = Raise (IndexError (lit "string index out of range")) /\
  (forall msg : str, fst (read self) <> Raise (ValueError msg)) /\
  inbox (adapter (snd (read self))) = rest.
Proof.
  intros Hin. rewrite (read_empty_frame self rest Hin).
  split; [reflexivity|]. split; [intros msg; discriminate|reflexivity].
Qed.

Lemma read_empty_line_raises_witness :
  fst (read (__init__ {| outbox := []; inbox := [[]; lit "001M^"] |} 1))
    = Raise (IndexError (lit "string index out of range")) /\
  (forall msg : str,
     fst (read (__init__ {| outbox := []; inbox := [[]; lit "001M^"] |} 1))
       <> Raise (ValueError msg)) /\
  inbox (adapter (snd (read (__init__ {| outbox := [];
                                         inbox := [[]; lit "001M^"] |} 1))))
    = [lit "001M^"].
Proof.
  apply (read_empty_line_raises
           (__init__ {| outbox := []; inbox := [[]; lit "001M^"] |} 1)
           [lit "001M^"]).
  reflexivity.
Defined.

(** ** Further properties of [check_errors] *)

(** X6: [check_errors] does to the instance exactly what its one [read] does; an
    exception of that [read] comes out unchanged; and the only list it ever
    returns is the empty one. *)
Theorem check_errors_after_read (self : instrument) :
  snd (check_errors self) = snd (read self) /\
  (forall e : exn, fst (read self) = Raise e -> fst (check_errors self) = Raise e) /\
  (forall errors : list str, fst (check_errors self) = Ok errors -> errors = []).
Proof.
  unfold check_errors, bind.
  destruct (read self) as [[reply|e] self1]; cbn [fst snd].
  - unfold raise, lift, ret.
    destruct (len reply <? 4); cbn [fst snd].
    + split; [reflexivity|]. split; discriminate.
    + destruct (getitem reply 3) as [echo|e]; cbn [fst snd].
      * destruct (existsb (N.eqb echo) [78%N; 88%N]); cbn [fst snd].
        -- split; [reflexivity|]. split; discriminate.
        -- split; [reflexivity|]. split; [discriminate|].
           intros errors [= <-]. reflexivity.
      * split; [reflexivity|]. split; discriminate.
  - split; [reflexivity|]. split; [intros e' [= <-]; reflexivity|discriminate].
Qed.

(** ** Further properties of [write] *)








(** ** The reply header: address echo and command letter *)

Lemma preprocess_reply_skips_four (s : str) : preprocess_reply s = skipn 4 s.
Proof.
  unfold preprocess_reply. change 4 with (Z.of_nat 4).
  apply slice_from_nonneg.
Qed.

Lemma getitem_three (s : str) (c : char) :
  nth_error s 3 = Some c -> getitem s 3 = Ok c.
Proof. intros H. exact (getitem_nonneg s 3 c H). Qed.

(** X9: With an address from 0 to 999, what [write] sends as data is what comes
    back as the data field: the frame read back through the loopback, with
    its four leading characters stripped by [preprocess_reply], is the data,
    and the character at index 3 is the command letter. *)
Theorem data_field_roundtrip (a : Adapter) (addr : Z) (letter : char) (data : str) :
  0 <= addr <= 999 ->
  exists reply : str,
    fst (read (loopback (snd (write (letter :: data) (__init__ a addr)))))
      = Ok reply /\
    preprocess_reply reply = data /\
    getitem reply 3 = Ok letter.
Proof.
  intros Haddr.
  destruct (loopback_read_write (__init__ a addr) (letter :: data)) as [_ Hr].
  cbn [address __init__] in Hr. rewrite format_d_3_digits in Hr by exact Haddr.
  eexists. split; [exact Hr|]. split.
  - rewrite preprocess_reply_skips_four. reflexivity.
  - apply getitem_three. reflexivity.
Qed.

Lemma data_field_roundtrip_witness :
  exists reply : str,
    fst (read (loopback (snd (write (lit "u000001")
                               (__init__ {| outbox := []; inbox := [] |} 15)))))
      = Ok reply /\
    preprocess_reply reply = lit "000001" /\
    getitem reply 3 = Ok 117%N.
Proof.
  apply (data_field_roundtrip {| outbox := []; inbox := [] |} 15 117%N (lit "000001")).
  lia.
Defined.

(** X10: For a pending reply that echoes an address from 0 to 999 and a command
    letter, with a correct checksum, [check_errors] is decided by that
    letter: the device error when it is ["N"] or ["X"], no error otherwise. *)
Theorem check_errors_reads_command_letter
  (self : instrument) (addr : Z) (letter chk : char) (data : str) (rest : list str) :
  0 <= addr <= 999 ->
  _checksum (format_d 3 addr ++ letter :: data) = Ok chk ->
  inbox (adapter self) = ((format_d 3 addr ++ letter :: data) ++ [chk]) :: rest ->
  fst (check_errors self) =
    if existsb (N.eqb letter) [78%N; 88%N]
    then Raise (DeviceError (format_d 3 addr ++ letter :: data))
    else Ok [].
Proof.
  intros Haddr Hchk Hin.
  unfold check_errors, bind.
  rewrite (read_frame self _ chk chk rest Hin Hchk), N.eqb_refl.
  rewrite format_d_3_digits by exact Haddr.
  replace (len (_ ++ letter :: data) <? 4) with false
    by (symmetry; apply Z.ltb_ge; unfold len; simpl List.length; lia).
  unfold lift. erewrite getitem_three by reflexivity.
  destruct (existsb (N.eqb letter) [78%N; 88%N]); reflexivity.
Qed.

Lemma check_errors_reads_command_letter_witness :
  fst (check_errors (__init__ {| outbox := []; inbox := [lit "007X1`"] |} 7))
    = Raise (DeviceError (lit "007X1")).
Proof.
  apply (check_errors_reads_command_letter
           (__init__ {| outbox := []; inbox := [lit "007X1`"] |} 7)
           7 88%N 96%N (lit "1") []).
  - lia.
  - reflexivity.
  - reflexivity.
Defined.

(** The four digits of an address between 1000 and 9999. *)
Lemma format_d_3_table_four :
  forallb
    (fun n : nat =>
       match format_d 3 (Z.of_nat n) with
       | [d1; d2; d3; d4] =>
           is_digit d1 && is_digit d2 && is_digit d3 && is_digit d4
       | _ => false
       end)
    (seq 1000 (N.to_nat 9000)) = true.
Proof. vm_compute. reflexivity. Qed.

Lemma format_d_3_four_digits (a : Z) :
  1000 <= a <= 9999 ->
  exists d1 d2 d3 d4 : char,
    format_d 3 a = [d1; d2; d3; d4] /\ is_digit d4 = true.
Proof.
  intros Ha.
  pose proof (proj1 (forallb_forall _ _) format_d_3_table_four (Z.to_nat a)) as H.
  cbv beta in H. rewrite Z2Nat.id in H by lia.
  assert (Hin : In (Z.to_nat a) (seq 1000 (N.to_nat 9000))) by (apply in_seq; lia).
  specialize (H Hin).
  destruct (format_d 3 a) as [|d1 [|d2 [|d3 [|d4 [|d5 l]]]]]; try discriminate H.
  exists d1, d2, d3, d4. split; [reflexivity|].
  apply andb_prop in H. exact (proj2 H).
Qed.

(** X11: With an address from 1000 to 9999 the header is five characters long,
    one more than the readers assume: the frame read back has a digit at
    index 3, the stripped data field starts with the command letter, and
    [check_errors] reports no error even when that letter is ["N"] or
    ["X"]. *)
Theorem four_digit_address_shifts_header
  (a : Adapter) (addr : Z) (letter : char) (data : str) :
  1000 <= addr <= 9999 ->
  let sent := loopback (snd (write (letter :: data) (__init__ a addr))) in
  exists (reply : str) (d : char),
    fst (read sent) = Ok reply /\
    getitem reply 3 = Ok d /\ is_digit d = true /\
    preprocess_reply reply = letter :: data /\
    fst (check_errors sent) = Ok [].
Proof.
  intros Haddr sent.
  destruct (loopback_read_write (__init__ a addr) (letter :: data)) as [_ Hr].
  fold sent in Hr. cbn [address __init__] in Hr.
  destruct (format_d_3_four_digits addr Haddr) as (d1 & d2 & d3 & d4 & Hfmt & Hd4).
  rewrite Hfmt in Hr.
  exists ([d1; d2; d3; d4] ++ letter :: data), d4.
  split; [exact Hr|].
  split; [apply getitem_three; reflexivity|].
  split; [exact Hd4|].
  split; [rewrite preprocess_reply_skips_four; reflexivity|].
  unfold check_errors, bind.
  destruct (read sent) as [r s1]. cbn [fst] in Hr. subst r.
  replace (len ([d1; d2; d3; d4] ++ letter :: data) <? 4) with false
    by (symmetry; apply Z.ltb_ge; unfold len; simpl List.length; lia).
  unfold lift. erewrite getitem_three by reflexivity.
  assert (H78 : (d4 =? 78)%N = false).
  { apply N.eqb_neq. intros ->. discriminate Hd4. }
  assert (H88 : (d4 =? 88)%N = false).
  { apply N.eqb_neq. intros ->. discriminate Hd4. }
  cbn [existsb]. rewrite H78, H88. reflexivity.
Qed.

Lemma four_digit_address_shifts_header_witness :
  exists (reply : str) (d : char),
    fst (read (loopback (snd (write (lit "N")
                               (__init__ {| outbox := []; inbox := [] |} 1000)))))
      = Ok reply /\
    getitem reply 3 = Ok d /\ is_digit d = true /\
    preprocess_reply reply = lit "N" /\
    fst (check_errors (loopback (snd (write (lit "N")
                                       (__init__ {| outbox := []; inbox := [] |} 1000)))))
      = Ok [].
Proof.
  apply (four_digit_address_shifts_header
           {| outbox := []; inbox := [] |} 1000 78%N []).
  lia.
Defined.

(** ** Further properties of the pressure decoding *)

Lemma digit_bounds (c : char) : is_digit c = true -> 0 <= ord c - 48 <= 9.
Proof.
  unfold is_digit, ord. intros H. apply andb_prop in H. destruct H as [Hlo Hhi].
  apply N.leb_le in Hlo, Hhi. lia.
Qed.

Lemma fold_digits_bounds (s : str) :
  forallb is_digit s = true ->
  forall acc : Z, 0 <= acc ->
    0 <= fold_left (fun acc c => 10 * acc + (ord c - 48)) s acc
      < (acc + 1) * 10 ^ Z.of_nat (List.length s).
Proof.
  induction s as [|c s IH]; intros Hd acc Hacc.
  - simpl. lia.
  - cbn [forallb] in Hd. apply andb_prop in Hd. destruct Hd as [Hc Hs].
    pose proof (digit_bounds c Hc) as Hb.
    cbn [fold_left List.length].
    specialize (IH Hs (10 * acc + (ord c - 48)) ltac:(lia)).
    rewrite Nat2Z.inj_succ, Z.pow_succ_r by lia.
    assert (Hp : 0 < 10 ^ Z.of_nat (List.length s)) by (apply Z.pow_pos_nonneg; lia).
    nia.
Qed.

Lemma digits_value_bounds (s : str) (k : nat) :
  forallb is_digit s = true -> (List.length s <= k)%nat ->
  0 <= digits_value s < 10 ^ Z.of_nat k.
Proof.
  intros Hd Hlen. pose proof (fold_digits_bounds s Hd 0 ltac:(lia)) as H.
  fold (digits_value s) in H.
  assert (Hle : 10 ^ Z.of_nat (List.length s) <= 10 ^ Z.of_nat k)
    by (apply Z.pow_le_mono_r; lia).
  lia.
Qed.

(** Every integer below 10000 converts to a float. *)
Lemma float_of_int_table :
  forallb
    (fun n : nat =>
       match float_of_int (Z.of_nat n) with Ok _ => true | Raise _ => false end)
    (seq 0 (N.to_nat 10000)) = true.
Proof. vm_compute. reflexivity. Qed.

Lemma float_of_int_small (i : Z) :
  0 <= i < 10000 -> exists x : float, float_of_int i = Ok x.
Proof.
  intros Hi.
  pose proof (proj1 (forallb_forall _ _) float_of_int_table (Z.to_nat i)) as H.
  cbv beta in H. rewrite Z2Nat.id in H by lia.
  assert (Hin : In (Z.to_nat i) (seq 0 (N.to_nat 10000))) by (apply in_seq; lia).
  specialize (H Hin).
  destruct (float_of_int i) as [x|e]; [exists x; reflexivity|discriminate H].
Qed.

Lemma float_truediv_1000 (x : float) :
  float_truediv x (Int 1000) = Ok (x / 1000)%float.
Proof. reflexivity. Qed.

(** X12: A field of one to four digits has no exponent part: the mantissa is
    read, and [int] of the empty rest raises [ValueError]; on the empty field
    it is [float] that raises it. *)
Theorem pressure_short_field_raises (libm_pow : float -> float -> float) (s : str) :
  forallb is_digit s = true ->
  (List.length s <= 4)%nat ->
  pressure_get_process libm_pow s =
    match s with
    | [] => Raise (ValueError (lit "could not convert string to float: ''"))
    | _ => Raise (ValueError (lit "invalid literal for int() with base 10: ''"))
    end.
Proof.
  intros Hd Hlen. destruct s as [|c s]; [reflexivity|].
  set (f := c :: s) in *.
  assert (Hne : f <> []) by discriminate.
  unfold pressure_get_process.
  change 4 with (Z.of_nat 4).
  rewrite slice_to_nonneg, slice_from_nonneg.
  rewrite firstn_all2 by exact Hlen. rewrite skipn_all2 by exact Hlen.
  rewrite (float_of_str_digits f Hne Hd) by lia.
  destruct (float_of_int_small (digits_value f)) as [x Hx].
  { pose proof (digits_value_bounds f 4 Hd Hlen) as H. simpl in H. lia. }
  rewrite Hx. cbn [rbind]. rewrite float_truediv_1000. reflexivity.
Qed.

Lemma pressure_short_field_raises_witness :
  pressure_get_process pow_not_called (lit "1000")
    = Raise (ValueError (lit "invalid literal for int() with base 10: ''")).
Proof.
  apply (pressure_short_field_raises pow_not_called (lit "1000")).
  - reflexivity.
  - simpl. lia.
Defined.

(** The scaling factor of every two-digit exponent field converts to a
    float, whichever way the power is computed. *)
Lemma exponent_factor_table (libm_pow : float -> float -> float) :
  forallb
    (fun n : nat =>
       match int_pow libm_pow 10 (Z.of_nat n - 20) with
       | Ok k => match as_float k with Ok _ => true | Raise _ => false end
       | Raise _ => false
       end)
    (seq 0 100) = true.
Proof. vm_compute. reflexivity. Qed.

Lemma exponent_factor_defined (libm_pow : float -> float -> float) (e : Z) :
  0 <= e < 100 ->
  exists (k : number) (f : float),
    int_pow libm_pow 10 (e - 20) = Ok k /\ as_float k = Ok f.
Proof.
  intros He.
  pose proof (proj1 (forallb_forall _ _) (exponent_factor_table libm_pow)
                (Z.to_nat e)) as H.
  cbv beta in H. rewrite Z2Nat.id in H by lia.
  assert (Hin : In (Z.to_nat e) (seq 0 100)) by (apply in_seq; lia).
  specialize (H Hin).
  destruct (int_pow libm_pow 10 (e - 20)) as [k|x]; [|discriminate H].
  destruct (as_float k) as [f|x] eqn:Hf; [|discriminate H].
  exists k, f. split; reflexivity || exact Hf.
Qed.

(** X13: On a field of six digits, four of mantissa and two of exponent, the
    decode function never raises: it returns the mantissa's value as a float,
    divided by 1000 and multiplied by the scaling factor.  For an exponent
    field of 20 or more the factor is the integer power of ten and the C
    library's [pow] is not called. *)
Theorem pressure_six_digits_defined
  (libm_pow : float -> float -> float) (mantissa exponent : str) :
  List.length mantissa = 4%nat -> forallb is_digit mantissa = true ->
  List.length exponent = 2%nat -> forallb is_digit exponent = true ->
  exists (m : float) (k : number) (f : float),
    float_of_int (digits_value mantissa) = Ok m /\
    int_pow libm_pow 10 (digits_value exponent - 20) = Ok k /\
    as_float k = Ok f /\
    (20 <= digits_value exponent ->
     k = Int (10 ^ (digits_value exponent - 20))) /\
    pressure_get_process libm_pow (mantissa ++ exponent)
      = Ok (m / 1000 * f)%float.
Proof.
  intros Hlm Hdm Hle Hde.
  assert (Hm_ne : mantissa <> []) by (intros ->; discriminate Hlm).
  assert (He_ne : exponent <> []) by (intros ->; discriminate Hle).
  pose proof (digits_value_bounds mantissa 4 Hdm ltac:(lia)) as Hmv.
  pose proof (digits_value_bounds exponent 2 Hde ltac:(lia)) as Hev.
  simpl in Hmv, Hev.
  destruct (float_of_int_small (digits_value mantissa) ltac:(lia)) as [m Hm].
  destruct (exponent_factor_defined libm_pow (digits_value exponent) ltac:(lia))
    as (k & f & Hk & Hf).
  exists m, k, f.
  split; [exact Hm|]. split; [exact Hk|]. split; [exact Hf|]. split.
  - intros Hge. unfold int_pow in Hk.
    replace (digits_value exponent - 20 <? 0) with false in Hk
      by (symmetry; apply Z.ltb_ge; lia).
    injection Hk as <-. reflexivity.
  - rewrite (pressure_get_process_split libm_pow mantissa exponent Hlm).
    unfold pressure_formula.
    rewrite (float_of_str_digits mantissa Hm_ne Hdm) by lia.
    rewrite Hm. cbn [rbind]. rewrite float_truediv_1000. cbn [rbind].
    rewrite (int_of_str_digits exponent He_ne Hde) by lia.
    cbn [rbind]. rewrite Hk. cbn [rbind].
    unfold float_mul. rewrite Hf. reflexivity.
Qed.

Lemma pressure_six_digits_defined_witness :
  exists (m : float) (k : number) (f : float),
    float_of_int (digits_value (lit "1234")) = Ok m /\
    int_pow pow_not_called 10 (digits_value (lit "23") - 20) = Ok k /\
    as_float k = Ok f /\
    (20 <= digits_value (lit "23") ->
     k = Int (10 ^ (digits_value (lit "23") - 20))) /\
    pressure_get_process pow_not_called (lit "1234" ++ lit "23")
      = Ok (m / 1000 * f)%float.
Proof.
  apply (pressure_six_digits_defined pow_not_called (lit "1234") (lit "23"));
    reflexivity.
Defined.

(** X14: A reply of at most four characters, a bare header or less, leaves an
    empty data field: stripping the header does not raise, so [type] would
    return the empty string, while the pressure decoding fails in [float]
    with [ValueError]. *)
Theorem header_only_reply (libm_pow : float -> float -> float) (reply : str) :
  (List.length reply <= 4)%nat ->
  preprocess_reply reply = [] /\
  pressure_get_process libm_pow (preprocess_reply reply)
    = Raise (ValueError (lit "could not convert string to float: ''")).
Proof.
  intros Hlen.
  assert (E : preprocess_reply reply = []).
  { rewrite preprocess_reply_skips_four. apply skipn_all2. exact Hlen. }
  rewrite E. split; reflexivity.
Qed.

Lemma header_only_reply_witness :
  preprocess_reply (lit "001M") = [] /\
  pressure_get_process pow_not_called (preprocess_reply (lit "001M"))
    = Raise (ValueError (lit "could not convert string to float: ''")).
Proof.
  apply (header_only_reply pow_not_called (lit "001M")).
  simpl. lia.
Defined.
